(** * Jars/script.py: the batch runner

    The script reads [sys.argv[1]] as the mode and calls [os.system] once
    for every entry of a hardcoded list of instance identifiers.  The
    embedding keeps the two effects of the script explicit: indexing
    [sys.argv] may raise [IndexError], and [os.system] hands a command
    string to the environment, waits, and returns an exit status. *)

From Stdlib Require Import String Ascii List ZArith Lia Bool FinFun.
Import ListNotations.

Local Open Scope string_scope.
Local Open Scope list_scope.

(** ** Strings *)

Module Str.

(** [s[n:]] *)
Fixpoint drop (n : nat) (s : string) : string :=
  match n, s with
  | O, _ => s
  | S _, EmptyString => EmptyString
  | S n', String _ s' => drop n' s'
  end.

(** [c in s] *)
Fixpoint mem (c : ascii) (s : string) : bool :=
  match s with
  | EmptyString => false
  | String d s' => Ascii.eqb c d || mem c s'
  end.





End Str.

(** ** The fragment of Python the script is written in *)

Module Py.

Inductive exn : Type :=
  | IndexError.

(** A computation runs in a state [S]; it either returns a value or
    raises, and in both cases leaves a state behind. *)
Definition M (S A : Type) : Type := S -> (exn + A) * S.

Definition ret {S A} (a : A) : M S A := fun s => (inr a, s).

Definition raise {S A} (e : exn) : M S A := fun s => (inl e, s).

Definition bind {S A B} (m : M S A) (k : A -> M S B) : M S B :=
  fun s =>
  match m s with
  | (inr a, s') => k a s'
  | (inl e, s') => (inl e, s')
  end.

(** [l[n]] for a non-negative literal index [n]. *)
Definition getitem {S A} (l : list A) (n : nat) : M S A :=
  match nth_error l n with
  | Some x => ret x
  | None => raise IndexError
  end.

(** [for x in l: body] without [break] or [continue]. *)
Fixpoint for_each {S A} (l : list A) (body : A -> M S unit) : M S unit :=
  match l with
  | [] => ret tt
  | x :: l' => bind (body x) (fun _ => for_each l' body)
  end.

(** The status the interpreter process ends with: 0 when the module body
    runs to its end, 1 when an exception is left uncaught. *)
Definition exit_status {A} (r : exn + A) : Z :=
  match r with
  | inr _ => 0%Z
  | inl _ => 1%Z
  end.

End Py.

Declare Scope py_scope.
Delimit Scope py_scope with py.
Notation "x <- m ;; k" := (Py.bind m (fun x => k))
  (at level 61, m at next level, right associativity) : py_scope.
Notation "m ;; k" := (Py.bind m (fun _ => k))
  (at level 61, right associativity) : py_scope.

(** ** The [os] module *)

Module Os.

(** The calls of [os] that act on the world outside the interpreter.
    Only [system] occurs in the script. *)
Inductive call : Type :=
  | System (command : string)
  | Mkdir (path : string)
  | Makedirs (path : string).

Definition is_system (c : call) : bool :=
  match c with
  | System _ => true
  | _ => false
  end.

Definition creates_directory (c : call) : bool :=
  match c with
  | Mkdir _ | Makedirs _ => true
  | System _ => false
  end.

Definition command_of (c : call) : option string :=
  match c with
  | System cmd => Some cmd
  | _ => None
  end.

Section Env.

(** The world outside the interpreter and the shell that [os.system]
    hands its command to: the shell runs the command in a world and
    yields the child's exit status and the world it left. *)
Variable World : Type.
Variable shell : string -> World -> Z * World.

(** One completed call: the world it started in, what it returned and
    the world at its return. *)
Record entry : Type := Entry {
  started_in : World;
  made : call;
  returned : Z;
  left_in : World
  }.

Record state : Type := State {
  world : World;
  log : list entry
  }.

(** [os.system(command)]: blocks until the shell is done with the
    command and returns its status. *)
Definition system (command : string) : Py.M state Z :=
  fun s =>
    let (status, w') := shell command (world s) in
    (inr status,
     {| world := w';
        log := log s ++ [Entry (world s) (System command) status w'] |}).

End Env.

Arguments Entry {World}.
Arguments started_in {World}.
Arguments made {World}.
Arguments returned {World}.
Arguments left_in {World}.
Arguments State {World}.
Arguments world {World}.
Arguments log {World}.
Arguments system {World}.

End Os.

(** ** script.py *)

Module Script.

Definition instances : list string :=
  ["020"; "040"; "060"; "080"; "100"; "200"; "400"]%string.

(** The argument of [os.system] in the loop body; [+] associates to the
    left. *)
Definition command (mode instance : string) : string :=
  ((((((("java -jar " ++ mode) ++ ".jar ") ++ instance) ++ ">results/")
     ++ mode) ++ "/") ++ instance)%string.

Section Run.

Variable World : Type.
Variable shell : string -> World -> Z * World.

Definition script (argv : list string) : Py.M (Os.state World) unit :=
  (mode <- Py.getitem argv 1 ;;
   Py.for_each instances (fun instance =>
     _ <- Os.system shell (command mode instance) ;;
     Py.ret tt))%py.

(** Running [python script.py ...] in world [w]. *)
Definition run (argv : list string) (w : World)
  : (Py.exn + unit) * Os.state World :=
  script argv (Os.State w []).

Definition outcome (argv : list string) (w : World) : Py.exn + unit :=
  fst (run argv w).

Definition calls (argv : list string) (w : World) : list Os.call :=
  map Os.made (Os.log (snd (run argv w))).

(** The command strings handed to the shell, in the order issued. *)
Definition commands (argv : list string) (w : World) : list string :=
  flat_map (fun c => match Os.command_of c with
                     | Some cmd => [cmd]
                     | None => []
                     end) (calls argv w).

Definition statuses (argv : list string) (w : World) : list Z :=
  map Os.returned (Os.log (snd (run argv w))).

Definition final_world (argv : list string) (w : World) : World :=
  Os.world (snd (run argv w)).

Definition journal (argv : list string) (w : World)
  : list (Os.entry World) :=
  Os.log (snd (run argv w)).

End Run.

Arguments script {World}.
Arguments run {World}.
Arguments outcome {World}.
Arguments calls {World}.
Arguments commands {World}.
Arguments statuses {World}.
Arguments final_world {World}.
Arguments journal {World}.

(** *** What the command carries *)

(** The text before the redirection operator: launcher, archive name and
    the argument.  The script hands the shell one string; [Str.words]
    gives the words it falls into at its blanks, and what the shell makes
    of the operators inside a word is the shell's own matter and is not
    described here. *)
Definition invocation (mode instance : string) : string :=
  ("java -jar " ++ mode ++ ".jar " ++ instance)%string.

(** The text of the command after the invocation and the [>] that
    follows it. *)
Definition redirect_target (mode instance : string) : string :=
  Str.drop (S (String.length (invocation mode instance)))
    (command mode instance).


(** The commands a run is to issue, read off the first argument alone. *)
Definition planned (arg1 : option string) : list string :=
  match arg1 with
  | Some mode => map (command mode) instances
  | None => []
  end.

End Script.

(** ** Reading a log *)

Module Trace.

Section Env.

Variable World : Type.
Variable shell : string -> World -> Z * World.

(** What a shell that is given the commands one after the other, each in
    the world the one before left, writes into the log. *)
Fixpoint sweep (cmds : list string) (w : World) : list (Os.entry World) :=
  match cmds with
  | [] => []
  | c :: cs =>
      let (status, w') := shell c w in
      Os.Entry w (Os.System c) status w' :: sweep cs w'
  end.

(** The world after a log that started in [w]. *)
Fixpoint last_world (w : World) (l : list (Os.entry World)) : World :=
  match l with
  | [] => w
  | e :: l' => last_world (Os.left_in e) l'
  end.

End Env.

Arguments sweep {World}.
Arguments last_world {World}.

End Trace.

(** ** A shell to try the script with *)

Module Demo.

(** The world is the list of commands run so far; the tool fails on
    instance 100 and succeeds on the others. *)
Definition shell (cmd : string) (w : list string) : Z * list string :=
  (if String.eqb cmd (Script.command "baseline" "100") then 1%Z else 0%Z,
   w ++ [cmd]).

(** A shell on which every command fails. *)
Definition broken (cmd : string) (w : nat) : Z * nat := (127%Z, S w).

Definition argv : list string := ["script.py"; "baseline"]%string.

End Demo.

(** * Properties *)

(** ** Strings *)

Module StrFacts.

Lemma app_assoc (a b c : string) :
  ((a ++ b) ++ c = a ++ (b ++ c))%string.
Proof.
  induction a as [|x a IH]; simpl; [reflexivity|].
  now rewrite IH.
Qed.

Lemma length_app (a b : string) :
  String.length (a ++ b)%string = String.length a + String.length b.
Proof.
  induction a as [|x a IH]; simpl; [reflexivity|].
  now rewrite IH.
Qed.

Lemma drop_app (a b : string) :
  Str.drop (String.length a) (a ++ b)%string = b.
Proof.
  induction a as [|x a IH]; simpl; [now destruct b|exact IH].
Qed.

Lemma get_app_r (a b : string) (k : nat) :
  String.get (String.length a + k) (a ++ b)%string = String.get k b.
Proof.
  induction a as [|x a IH]; simpl; [reflexivity|exact IH].
Qed.

Lemma substring_app_mid (a b c : string) :
  String.substring (String.length a) (String.length b) (a ++ b ++ c)%string
  = b.
Proof.
  induction a as [|x a IH]; simpl; [|exact IH].
  induction b as [|y b IHb]; simpl.
  - now destruct c.
  - now rewrite IHb.
Qed.

Lemma substring_app_end (a b : string) :
  String.substring (String.length a) (String.length b) (a ++ b)%string = b.
Proof.
  induction a as [|x a IH]; simpl; [|exact IH].
  induction b as [|y b IHb]; simpl; [reflexivity|now rewrite IHb].
Qed.

(** Two strings of one length can be read back from what they are
    followed by. *)
Lemma app_inv_length (a b c d : string) :
  String.length a = String.length b ->
  (a ++ c = b ++ d)%string -> a = b /\ c = d.
Proof.
  revert b; induction a as [|x a IH]; intros [|y b] Hl He;
    simpl in *; try discriminate.
  - now split.
  - injection He as -> He. injection Hl as Hl.
    destruct (IH b Hl He) as [-> ->]. now split.
Qed.

Lemma app_inv_head (a c d : string) : (a ++ c = a ++ d)%string -> c = d.
Proof.
  intros H. now apply (app_inv_length a a c d eq_refl) in H.
Qed.

End StrFacts.

(** ** The command string *)

Module CommandFacts.

Import Script.

(** The command with its pieces grouped to the right. *)
Lemma command_right (m i : string) :
  command m i
  = ("java -jar " ++ m ++ ".jar " ++ i ++ ">results/" ++ m ++ "/" ++ i)%string.
Proof.
  unfold command. now rewrite !StrFacts.app_assoc.
Qed.

Lemma command_split (m i : string) :
  command m i
  = (invocation m i ++ ">" ++ "results/" ++ m ++ "/" ++ i)%string.
Proof.
  rewrite command_right. unfold invocation.
  now rewrite !StrFacts.app_assoc.
Qed.

Lemma target_eq (m i : string) :
  redirect_target m i = ("results/" ++ m ++ "/" ++ i)%string.
Proof.
  unfold redirect_target. rewrite command_split.
  change (S (String.length (invocation m i)))
    with (1 + String.length (invocation m i)).
  rewrite Nat.add_comm.
  replace (String.length (invocation m i) + 1)
    with (String.length (invocation m i ++ ">")%string)
    by (rewrite StrFacts.length_app; reflexivity).
  rewrite <- StrFacts.app_assoc with (a := invocation m i).
  apply StrFacts.drop_app.
Qed.


Lemma command_length (m i : string) :
  String.length (command m i)
  = 25 + 2 * String.length m + 2 * String.length i.
Proof.
  rewrite command_right. rewrite !StrFacts.length_app. simpl. lia.
Qed.

Lemma command_inj (m i j : string) : command m i = command m j -> i = j.
Proof.
  intros H.
  assert (Hl : String.length i = String.length j).
  { apply (f_equal String.length) in H. rewrite !command_length in H. lia. }
  rewrite !command_right in H.
  do 3 apply StrFacts.app_inv_head in H.
  now apply StrFacts.app_inv_length in H.
Qed.

End CommandFacts.

(** ** Logs written by a sweep *)

Module TraceFacts.

Section Env.

Variable World : Type.
Variable shell : string -> World -> Z * World.

Lemma sweep_made (cmds : list string) (w : World) :
  map Os.made (Trace.sweep shell cmds w) = map Os.System cmds.
Proof.
  revert w; induction cmds as [|c cs IH]; intros w; simpl; [reflexivity|].
  destruct (shell c w) as [st w']. simpl. now rewrite IH.
Qed.

Lemma sweep_length (cmds : list string) (w : World) :
  length (Trace.sweep shell cmds w) = length cmds.
Proof.
  rewrite <- (length_map Os.made), sweep_made. apply length_map.
Qed.

Lemma sweep_last_world (cmds : list string) (w : World) :
  Trace.last_world w (Trace.sweep shell cmds w)
  = fold_left (fun w' c => snd (shell c w')) cmds w.
Proof.
  revert w; induction cmds as [|c cs IH]; intros w; simpl; [reflexivity|].
  destruct (shell c w) as [st w'] eqn:E. simpl. apply IH.
Qed.

End Env.

End TraceFacts.

(** ** What a run does *)

Module RunFacts.

Import Script.

Section Env.

Variable World : Type.
Variable shell : string -> World -> Z * World.

(** The loop over any list of instances, from any state. *)
Lemma loop_sweeps (m : string) (l : list string) (s : Os.state World) :
  Py.for_each l
    (fun instance => Py.bind (Os.system shell (command m instance))
                             (fun _ => Py.ret tt)) s
  = (inr tt,
     Os.State
       (Trace.last_world (Os.world s)
          (Trace.sweep shell (map (command m) l) (Os.world s)))
       (Os.log s ++ Trace.sweep shell (map (command m) l) (Os.world s))).
Proof.
  revert s; induction l as [|i l IH]; intros [w lg]; simpl.
  - unfold Py.ret. now rewrite app_nil_r.
  - unfold Py.bind at 1. unfold Py.bind at 1. unfold Os.system. simpl.
    destruct (shell (command m i) w) as [st w'] eqn:E.
    unfold Py.ret at 1. rewrite IH. simpl.
    now rewrite <- app_assoc.
Qed.

Lemma run_with_mode (argv : list string) (m : string) (w : World) :
  nth_error argv 1 = Some m ->
  run shell argv w
  = (inr tt,
     Os.State
       (Trace.last_world w (Trace.sweep shell (map (command m) instances) w))
       (Trace.sweep shell (map (command m) instances) w)).
Proof.
  intros H. unfold run, script, Py.getitem. rewrite H.
  unfold Py.bind at 1. unfold Py.ret at 1.
  now rewrite loop_sweeps.
Qed.

Lemma run_without_mode (argv : list string) (w : World) :
  nth_error argv 1 = None ->
  run shell argv w = (inl Py.IndexError, Os.State w []).
Proof.
  intros H. unfold run, script, Py.getitem. now rewrite H.
Qed.

Lemma commands_of_systems (cmds : list string) :
  flat_map (fun c => match Os.command_of c with
                     | Some cmd => [cmd]
                     | None => []
                     end) (map Os.System cmds) = cmds.
Proof.
  induction cmds as [|c cs IH]; simpl; [reflexivity|now rewrite IH].
Qed.

Lemma calls_with_mode (argv : list string) (m : string) (w : World) :
  nth_error argv 1 = Some m ->
  calls shell argv w = map Os.System (map (command m) instances).
Proof.
  intros H. unfold calls. rewrite (run_with_mode _ _ _ H).
  cbv [snd Os.log]. apply TraceFacts.sweep_made.
Qed.

Lemma commands_with_mode (argv : list string) (m : string) (w : World) :
  nth_error argv 1 = Some m ->
  commands shell argv w = map (command m) instances.
Proof.
  intros H. unfold commands. rewrite (calls_with_mode _ _ _ H).
  apply commands_of_systems.
Qed.

Lemma commands_without_mode (argv : list string) (w : World) :
  nth_error argv 1 = None -> commands shell argv w = [].
Proof.
  intros H. unfold commands, calls. now rewrite (run_without_mode _ _ H).
Qed.

End Env.

End RunFacts.

(** ** Words of a command line *)

Module WordFacts.








End WordFacts.

(** * The runner's contract *)

(** C1.  With mode [m] as first argument, the commands handed to the shell
    are those of the seven instances 020, 040, 060, 080, 100, 200, 400, in
    that order and from one pass over the list: seven commands, each
    instance's command among them exactly once, and none that belongs to
    no instance. *)
Theorem one_invocation_per_instance
  (World : Type) (shell : string -> World -> Z * World)
  (argv : list string) (m : string) (w : World) :
  nth_error argv 1 = Some m ->
  Script.commands shell argv w = map (Script.command m) Script.instances
  /\ Script.instances
     = ["020"; "040"; "060"; "080"; "100"; "200"; "400"]%string
  /\ length (Script.commands shell argv w) = 7
  /\ (forall i, In i Script.instances ->
        count_occ string_dec (Script.commands shell argv w)
          (Script.command m i) = 1)
  /\ (forall c, In c (Script.commands shell argv w) ->
        exists i, In i Script.instances /\ c = Script.command m i).
Proof.
  intros H. rewrite (RunFacts.commands_with_mode _ shell argv m w H).
  split; [reflexivity|]. split; [reflexivity|]. split; [reflexivity|].
  split.
  - intros i Hi.
    assert (ND : NoDup (map (Script.command m) Script.instances)).
    { apply Injective_map_NoDup.
      - intros a b. apply CommandFacts.command_inj.
      - unfold Script.instances.
        repeat (constructor; [simpl; intuition discriminate|]).
        constructor. }
    apply (proj1 (NoDup_count_occ' string_dec _) ND).
    now apply in_map.
  - intros c Hc. apply in_map_iff in Hc as [i [E Hi]].
    exists i. now split.
Qed.

Lemma one_invocation_per_instance_witness :
  nth_error Demo.argv 1 = Some "baseline"%string
  /\ Script.commands Demo.shell Demo.argv []
     = map (Script.command "baseline") Script.instances.
Proof.
  split; [reflexivity|].
  exact (proj1 (one_invocation_per_instance _ Demo.shell Demo.argv
                  "baseline" [] eq_refl)).
Defined.




(** C3.  For every mode [m] and every instance [i], what the command
    carries after the invocation and its [>] is exactly
    ["results/" + m + "/" + i]: the command is the invocation, the
    operator and that target, and nothing follows the target. *)
Theorem redirect_target_is_concatenation (m i : string) :
  Script.redirect_target m i = ("results/" ++ m ++ "/" ++ i)%string
  /\ String.get (String.length (Script.invocation m i)) (Script.command m i)
     = Some ">"%char
  /\ Script.command m i
     = (Script.invocation m i ++ ">" ++ Script.redirect_target m i)%string.
Proof.
  rewrite CommandFacts.target_eq. split; [reflexivity|]. split.
  - rewrite CommandFacts.command_split.
    rewrite <- (Nat.add_0_r (String.length _)).
    now rewrite StrFacts.get_app_r.
  - apply CommandFacts.command_split.
Qed.

(** C4, as the claim has it, fails: no mode and no instance of the list
    give a target that is not of the form results/<mode>/<instance>. *)
Lemma no_mode_breaks_results_form :
  ~ (exists m i, In i Script.instances /\
       Script.redirect_target m i <> ("results/" ++ m ++ "/" ++ i)%string).
Proof.
  intros (m & i & _ & N). apply N. apply CommandFacts.target_eq.
Qed.

(** C4, amended.  The target is built with a separator on both sides of
    the mode, whatever the mode ends in: it reads [results], [/], the mode
    unchanged, [/], the instance, and that is all of it. *)
Theorem target_has_both_separators (m i : string) :
  String.substring 0 7 (Script.redirect_target m i) = "results"%string
  /\ String.get 7 (Script.redirect_target m i) = Some "/"%char
  /\ String.substring 8 (String.length m) (Script.redirect_target m i) = m
  /\ String.get (8 + String.length m) (Script.redirect_target m i)
     = Some "/"%char
  /\ String.substring (9 + String.length m) (String.length i)
       (Script.redirect_target m i) = i
  /\ String.length (Script.redirect_target m i)
     = 9 + String.length m + String.length i.
Proof.
  rewrite CommandFacts.target_eq.
  split; [reflexivity|]. split; [reflexivity|]. split.
  { apply (StrFacts.substring_app_mid "results/" m). }
  split.
  { rewrite <- (StrFacts.app_assoc "results/" m).
    change 8 with (String.length "results/").
    rewrite <- StrFacts.length_app.
    rewrite <- (Nat.add_0_r (String.length _)).
    now rewrite StrFacts.get_app_r. }
  split.
  { assert (E : ("results/" ++ m ++ "/" ++ i
                 = ("results/" ++ m ++ "/") ++ i)%string)
      by now rewrite !StrFacts.app_assoc.
    rewrite E.
    replace (9 + String.length m)
      with (String.length ("results/" ++ m ++ "/")%string)
      by (rewrite !StrFacts.length_app; simpl; lia).
    apply StrFacts.substring_app_end. }
  rewrite !StrFacts.length_app. simpl. lia.
Qed.

(** C5.  When [sys.argv] has no element at index 1, the run ends in
    [IndexError] with nothing handed to the shell: no call of [os] at all
    is made, the world is as it was, and the interpreter exits with a
    non-zero status. *)
Theorem missing_argument_fails_before_any_call
  (World : Type) (shell : string -> World -> Z * World)
  (argv : list string) (w : World) :
  length argv <= 1 ->
  Script.outcome shell argv w = inl Py.IndexError
  /\ Script.calls shell argv w = []
  /\ Script.commands shell argv w = []
  /\ Script.final_world shell argv w = w
  /\ Py.exit_status (Script.outcome shell argv w) <> 0%Z.
Proof.
  intros H. apply nth_error_None in H.
  unfold Script.outcome, Script.commands, Script.calls, Script.final_world.
  rewrite (RunFacts.run_without_mode _ shell argv w H). simpl.
  repeat split; discriminate.
Qed.

Lemma missing_argument_fails_before_any_call_witness :
  length ["script.py"%string] <= 1
  /\ Script.outcome Demo.shell ["script.py"%string] [] = inl Py.IndexError
  /\ Script.calls Demo.shell ["script.py"%string] [] = [].
Proof.
  assert (H : length ["script.py"%string] <= 1) by (simpl; lia).
  split; [exact H|].
  pose proof (missing_argument_fails_before_any_call _ Demo.shell
                ["script.py"%string] [] H) as (Ho & Hc & _).
  now split.
Defined.

(** C6.  The statuses the shell returns decide nothing.  With mode [m],
    whatever shell the run is given, the same commands are issued as with
    any other shell; a non-zero status at one position leaves every later
    instance's command in its place; in particular the commands for 200
    and 400 close the run behind five earlier ones. *)
Theorem failures_do_not_abort
  (World : Type) (shell : string -> World -> Z * World)
  (argv : list string) (m : string) (w : World) :
  nth_error argv 1 = Some m ->
  (forall (World' : Type) (shell' : string -> World' -> Z * World')
          (w' : World'),
      Script.commands shell argv w = Script.commands shell' argv w')
  /\ (forall k status j i,
        nth_error (Script.statuses shell argv w) k = Some status ->
        status <> 0%Z -> k < j ->
        nth_error Script.instances j = Some i ->
        nth_error (Script.commands shell argv w) j
        = Some (Script.command m i))
  /\ (exists before,
        length before = 5 /\
        Script.commands shell argv w
        = before ++ [Script.command m "200"; Script.command m "400"])
  /\ length (Script.statuses shell argv w) = 7.
Proof.
  intros H. rewrite (RunFacts.commands_with_mode _ shell argv m w H).
  split.
  { intros W' shell' w'.
    now rewrite (RunFacts.commands_with_mode _ shell' argv m w' H). }
  split.
  { intros k status j i _ _ _ Hj. now apply map_nth_error. }
  split.
  { exists (map (Script.command m) ["020"; "040"; "060"; "080"; "100"]%string).
    now split. }
  unfold Script.statuses. rewrite (RunFacts.run_with_mode _ shell argv m w H).
  cbv [snd Os.log]. rewrite length_map.
  now rewrite TraceFacts.sweep_length, length_map.
Qed.

Lemma failures_do_not_abort_witness :
  nth_error Demo.argv 1 = Some "baseline"%string
  /\ Script.statuses Demo.shell Demo.argv [] = [0; 0; 0; 0; 1; 0; 0]%Z
  /\ nth_error (Script.commands Demo.shell Demo.argv []) 5
     = Some (Script.command "baseline" "200")
  /\ nth_error (Script.commands Demo.shell Demo.argv []) 6
     = Some (Script.command "baseline" "400").
Proof.
  split; [reflexivity|]. split; [reflexivity|].
  pose proof (failures_do_not_abort _ Demo.shell Demo.argv "baseline" []
                eq_refl) as (_ & Hlater & _).
  assert (Hst : nth_error (Script.statuses Demo.shell Demo.argv []) 4
                = Some 1%Z) by reflexivity.
  split.
  - apply (Hlater 4 1%Z 5 "200"%string Hst); [discriminate|lia|reflexivity].
  - apply (Hlater 4 1%Z 6 "400"%string Hst); [discriminate|lia|reflexivity].
Defined.

(** C8.  No call of a run creates a directory: every call is a call of
    [os.system], the world changes through the shell commands alone, and
    with mode [m] the calls are the seven invocations and nothing
    else. *)
Theorem runner_creates_no_directory
  (World : Type) (shell : string -> World -> Z * World)
  (argv : list string) (w : World) :
  Forall (fun c => Os.creates_directory c = false) (Script.calls shell argv w)
  /\ Forall (fun c => Os.is_system c = true) (Script.calls shell argv w)
  /\ Script.final_world shell argv w
     = fold_left (fun w' cmd => snd (shell cmd w'))
         (Script.commands shell argv w) w
  /\ (forall m, nth_error argv 1 = Some m ->
        Script.calls shell argv w
        = map (fun i => Os.System (Script.command m i)) Script.instances).
Proof.
  destruct (nth_error argv 1) as [m|] eqn:H.
  - rewrite (RunFacts.commands_with_mode _ shell argv m w H).
    rewrite (RunFacts.calls_with_mode _ shell argv m w H).
    unfold Script.final_world.
    rewrite (RunFacts.run_with_mode _ shell argv m w H).
    cbv [snd Os.world]. rewrite TraceFacts.sweep_last_world.
    rewrite map_map.
    split; [apply Forall_map, Forall_forall; now intros|].
    split; [apply Forall_map, Forall_forall; now intros|].
    split; [reflexivity|].
    intros m' E. now injection E as <-.
  - rewrite (RunFacts.commands_without_mode _ shell argv w H).
    unfold Script.calls, Script.final_world.
    rewrite (RunFacts.run_without_mode _ shell argv w H). simpl.
    repeat split; try constructor. discriminate.
Qed.

Lemma runner_creates_no_directory_witness :
  Script.calls Demo.shell Demo.argv []
  = map (fun i => Os.System (Script.command "baseline" i)) Script.instances.
Proof.
  exact (proj2 (proj2 (proj2 (runner_creates_no_directory _ Demo.shell
                                Demo.argv []))) "baseline"%string eq_refl).
Defined.

(** C9.  The commands of a run are read off [sys.argv[1]] alone.  Two
    runs whose argument lists agree at index 1 issue the same commands,
    whatever stands at index 0, whatever follows index 1, and whatever
    the shells answer. *)
Theorem commands_depend_on_first_argument_only
  (World World' : Type)
  (shell : string -> World -> Z * World)
  (shell' : string -> World' -> Z * World')
  (argv argv' : list string) (w : World) (w' : World') :
  nth_error argv 1 = nth_error argv' 1 ->
  Script.commands shell argv w = Script.planned (nth_error argv 1)
  /\ Script.commands shell argv w = Script.commands shell' argv' w'.
Proof.
  intros E.
  assert (P : forall (W : Type) (sh : string -> W -> Z * W) a x,
             Script.commands sh a x = Script.planned (nth_error a 1)).
  { intros W sh a x. destruct (nth_error a 1) as [m|] eqn:H; simpl.
    - apply (RunFacts.commands_with_mode _ sh a m x H).
    - apply (RunFacts.commands_without_mode _ sh a x H). }
  split; [apply P|]. now rewrite !P, E.
Qed.

Lemma commands_depend_on_first_argument_only_witness :
  nth_error Demo.argv 1
  = nth_error ["other.py"; "baseline"; "-v"; "400"]%string 1
  /\ Script.commands Demo.shell Demo.argv []
     = Script.commands Demo.broken
         ["other.py"; "baseline"; "-v"; "400"]%string 0.
Proof.
  split; [reflexivity|].
  exact (proj2 (commands_depend_on_first_argument_only _ _ Demo.shell
                  Demo.broken Demo.argv
                  ["other.py"; "baseline"; "-v"; "400"]%string [] 0
                  eq_refl)).
Defined.

(** C10.  With [sys.argv[1]] present, the run reaches the end of the
    module body, so the interpreter exits with status 0; this holds for
    every shell, hence for every seven statuses the calls return, and the
    statuses recorded are the shell's own. *)
Theorem run_completes_with_status_zero
  (World : Type) (shell : string -> World -> Z * World)
  (argv : list string) (m : string) (w : World) :
  nth_error argv 1 = Some m ->
  Script.outcome shell argv w = inr tt
  /\ Py.exit_status (Script.outcome shell argv w) = 0%Z
  /\ Script.statuses shell argv w
     = map Os.returned
         (Trace.sweep shell (map (Script.command m) Script.instances) w).
Proof.
  intros H. unfold Script.outcome, Script.statuses.
  rewrite (RunFacts.run_with_mode _ shell argv m w H).
  repeat split.
Qed.

Lemma run_completes_with_status_zero_witness :
  nth_error Demo.argv 1 = Some "baseline"%string
  /\ Script.statuses Demo.broken Demo.argv 0
     = [127; 127; 127; 127; 127; 127; 127]%Z
  /\ Py.exit_status (Script.outcome Demo.broken Demo.argv 0) = 0%Z.
Proof.
  split; [reflexivity|]. split; [reflexivity|].
  exact (proj1 (proj2 (run_completes_with_status_zero _ Demo.broken
                         Demo.argv "baseline" 0 eq_refl))).
Defined.

(** * Further properties of the script *)

Module MoreFacts.

Import Script.

Lemma mem_app (c : ascii) (a b : string) :
  Str.mem c (a ++ b)%string = Str.mem c a || Str.mem c b.
Proof.
  induction a as [|x a IH]; simpl; [reflexivity|].
  now rewrite IH, orb_assoc.
Qed.

Lemma instance_length (i : string) : In i instances -> String.length i = 3.
Proof.
  unfold instances. simpl.
  intros H. repeat (destruct H as [<- | H]; [reflexivity|]). contradiction.
Qed.

(** A predicate on worlds that the shell keeps on the commands of a sweep
    holds all along the sweep. *)
Lemma sweep_keeps (World : Type) (shell : string -> World -> Z * World)
      (I : World -> Prop) (cmds : list string) (w : World) :
  (forall c w', In c cmds -> I w' -> I (snd (shell c w'))) ->
  I w ->
  Forall (fun e => I (Os.started_in e) /\ I (Os.left_in e))
    (Trace.sweep shell cmds w)
  /\ I (Trace.last_world w (Trace.sweep shell cmds w)).
Proof.
  revert w; induction cmds as [|c cs IH]; intros w Hk Hw; simpl.
  - split; [constructor|exact Hw].
  - pose proof (Hk c w (or_introl eq_refl) Hw) as Hn.
    destruct (shell c w) as [st w'] eqn:E. simpl in Hn |- *.
    destruct (IH w' (fun c' x Hc => Hk c' x (or_intror Hc)) Hn) as [Hf Hl].
    split; [constructor; [now split|exact Hf]|exact Hl].
Qed.

End MoreFacts.

(** X1.  The text of the redirection target determines the mode and the
    instance it was built from: for instances of the list, equal target
    strings mean equal modes and equal instances.  This is about the path
    as it is written, not about the file the path leads to. *)
Theorem output_targets_are_distinct (m m' i i' : string) :
  In i Script.instances -> In i' Script.instances ->
  Script.redirect_target m i = Script.redirect_target m' i' ->
  m = m' /\ i = i'.
Proof.
  intros Hi Hi' E.
  apply MoreFacts.instance_length in Hi, Hi'.
  rewrite !CommandFacts.target_eq in E.
  apply StrFacts.app_inv_head in E.
  assert (Hl : String.length m = String.length m').
  { apply (f_equal String.length) in E.
    rewrite !StrFacts.length_app in E. simpl in E. lia. }
  destruct (StrFacts.app_inv_length _ _ _ _ Hl E) as [-> E'].
  split; [reflexivity|].
  now apply (StrFacts.app_inv_head "/") in E'.
Qed.

Lemma output_targets_are_distinct_witness :
  In "020"%string Script.instances
  /\ In "020"%string Script.instances
  /\ Script.redirect_target "baseline" "020"
     = Script.redirect_target "baseline" "020"
  /\ "baseline"%string = "baseline"%string.
Proof.
  assert (H : In "020"%string Script.instances) by (left; reflexivity).
  split; [exact H|]. split; [exact H|]. split; [reflexivity|].
  exact (proj1 (output_targets_are_distinct "baseline" "baseline"
                  "020" "020" H H eq_refl)).
Defined.

(** X2.  The command string determines the mode and the instance it was
    built from: for instances of the list, equal commands come from equal
    modes and equal instances. *)
Theorem command_determines_mode_and_instance (m m' i i' : string) :
  In i Script.instances -> In i' Script.instances ->
  Script.command m i = Script.command m' i' ->
  m = m' /\ i = i'.
Proof.
  intros Hi Hi' E.
  apply MoreFacts.instance_length in Hi, Hi'.
  assert (Hl : String.length m = String.length m').
  { apply (f_equal String.length) in E.
    rewrite !CommandFacts.command_length in E. lia. }
  rewrite !CommandFacts.command_right in E.
  apply StrFacts.app_inv_head in E.
  destruct (StrFacts.app_inv_length _ _ _ _ Hl E) as [-> E'].
  split; [reflexivity|].
  apply (StrFacts.app_inv_head ".jar ") in E'.
  assert (Hl' : String.length i = String.length i') by congruence.
  now destruct (StrFacts.app_inv_length _ _ _ _ Hl' E').
Qed.

Lemma command_determines_mode_and_instance_witness :
  In "100"%string Script.instances
  /\ In "100"%string Script.instances
  /\ Script.command "ga" "100" = Script.command "ga" "100"
  /\ "100"%string = "100"%string.
Proof.
  assert (H : In "100"%string Script.instances)
    by (do 4 right; left; reflexivity).
  split; [exact H|]. split; [exact H|]. split; [reflexivity|].
  exact (proj2 (command_determines_mode_and_instance "ga" "ga"
                  "100" "100" H H eq_refl)).
Defined.

(** X3.  A run is all or nothing, and the length of [sys.argv] alone
    decides which: with at most one element it raises [IndexError] and
    issues no command; with two or more it returns and issues seven.  No
    run stops part of the way through the list. *)
Theorem run_is_all_or_nothing
  (World : Type) (shell : string -> World -> Z * World)
  (argv : list string) (w : World) :
  (Script.outcome shell argv w = inl Py.IndexError <-> length argv <= 1)
  /\ (Script.outcome shell argv w = inr tt <-> 2 <= length argv)
  /\ length (Script.commands shell argv w)
     = (if (length argv <=? 1)%nat then 0 else 7)
  /\ length (Script.journal shell argv w)
     = length (Script.commands shell argv w)
  /\ Py.exit_status (Script.outcome shell argv w)
     = (if (length argv <=? 1)%nat then 1 else 0)%Z.
Proof.
  unfold Script.outcome, Script.journal.
  destruct (nth_error argv 1) as [m|] eqn:H.
  - assert (Hl : 1 < length argv)
      by (apply nth_error_Some; rewrite H; discriminate).
    rewrite (RunFacts.commands_with_mode _ shell argv m w H).
    rewrite (RunFacts.run_with_mode _ shell argv m w H).
    cbv [fst snd Os.log]. rewrite TraceFacts.sweep_length.
    destruct (Nat.leb_spec (length argv) 1) as [L|L]; [lia|].
    repeat split; try reflexivity; try discriminate; try lia.
  - assert (Hl : length argv <= 1) by now apply nth_error_None.
    rewrite (RunFacts.commands_without_mode _ shell argv w H).
    rewrite (RunFacts.run_without_mode _ shell argv w H).
    cbv [fst snd Os.log].
    destruct (Nat.leb_spec (length argv) 1) as [L|L]; [|lia].
    repeat split; try reflexivity; try discriminate; try lia.
Qed.

Lemma run_is_all_or_nothing_witness :
  length (Script.commands Demo.broken Demo.argv 0) = 7
  /\ length (Script.commands Demo.broken ["script.py"%string] 0) = 0.
Proof.
  split.
  - exact (proj1 (proj2 (proj2 (run_is_all_or_nothing _ Demo.broken
                                  Demo.argv 0)))).
  - exact (proj1 (proj2 (proj2 (run_is_all_or_nothing _ Demo.broken
                                  ["script.py"%string] 0)))).
Defined.

(** X4.  The mode goes into the command as it is, without quoting or
    escaping: it stands unchanged right behind the launcher, and a
    character occurs in the command exactly when it occurs in one of the
    four literals, in the mode or in the instance.  So every character
    of the mode, a shell metacharacter included, reaches the shell. *)
Theorem mode_reaches_shell_unescaped (m i : string) :
  String.substring 10 (String.length m) (Script.command m i) = m
  /\ (forall c,
        Str.mem c (Script.command m i)
        = Str.mem c "java -jar " || Str.mem c m || Str.mem c ".jar "
          || Str.mem c i || Str.mem c ">results/" || Str.mem c m
          || Str.mem c "/" || Str.mem c i)
  /\ (forall c, Str.mem c m = true -> Str.mem c (Script.command m i) = true).
Proof.
  assert (A : forall c,
             Str.mem c (Script.command m i)
             = Str.mem c "java -jar " || Str.mem c m || Str.mem c ".jar "
               || Str.mem c i || Str.mem c ">results/" || Str.mem c m
               || Str.mem c "/" || Str.mem c i).
  { intros c. unfold Script.command. now rewrite !MoreFacts.mem_app. }
  split.
  { rewrite CommandFacts.command_right.
    apply (StrFacts.substring_app_mid "java -jar " m). }
  split; [exact A|].
  intros c Hc. rewrite A, Hc.
  now rewrite orb_true_r.
Qed.

Lemma mode_reaches_shell_unescaped_witness :
  Str.mem ";"%char "a;b" = true
  /\ Str.mem ";"%char (Script.command "a;b" "020") = true.
Proof.
  split; [reflexivity|].
  exact (proj2 (proj2 (mode_reaches_shell_unescaped "a;b" "020"))
           ";"%char eq_refl).
Defined.

(** X5.  The runner adds nothing of its own to what the invoked commands
    do: a property of the world that every command of the run keeps holds
    before and after each invocation and at the end of the run, when it
    held at the start. *)
Theorem run_keeps_what_the_commands_keep
  (World : Type) (shell : string -> World -> Z * World)
  (I : World -> Prop) (argv : list string) (w : World) :
  (forall c w', In c (Script.planned (nth_error argv 1)) ->
                I w' -> I (snd (shell c w'))) ->
  I w ->
  I (Script.final_world shell argv w)
  /\ Forall (fun e => I (Os.started_in e) /\ I (Os.left_in e))
       (Script.journal shell argv w).
Proof.
  intros Hk Hw. unfold Script.final_world, Script.journal.
  destruct (nth_error argv 1) as [m|] eqn:H.
  - rewrite (RunFacts.run_with_mode _ shell argv m w H).
    cbv [snd Os.log Os.world].
    destruct (MoreFacts.sweep_keeps World shell I _ w Hk Hw) as [Hf Hl].
    now split.
  - rewrite (RunFacts.run_without_mode _ shell argv w H). simpl.
    split; [exact Hw|constructor].
Qed.

Lemma run_keeps_what_the_commands_keep_witness :
  (forall c w', In c (Script.planned (nth_error Demo.argv 1)) ->
                5 <= w' -> 5 <= snd (Demo.broken c w'))
  /\ 5 <= 5
  /\ 5 <= Script.final_world Demo.broken Demo.argv 5.
Proof.
  assert (Hk : forall c w', In c (Script.planned (nth_error Demo.argv 1)) ->
                            5 <= w' -> 5 <= snd (Demo.broken c w'))
    by (intros c w' _ Hw; simpl; lia).
  assert (H5 : 5 <= 5) by lia.
  split; [exact Hk|]. split; [exact H5|].
  exact (proj1 (run_keeps_what_the_commands_keep _ Demo.broken
                  (fun n => 5 <= n) Demo.argv 5 Hk H5)).
Defined.
